(** * Signature derivation of tools/codegen/api/types.py

    A shallow embedding of the three call surfaces of the code generator
    (C++ API, dispatcher, native) and of the argument packs the C++ API
    signatures are built from, followed by the properties of the
    declaration and definition text they render. *)

From Stdlib Require Import String List Bool Arith Lia Permutation.
Import ListNotations.
Local Open Scope list_scope.
Local Open Scope string_scope.

(* ------------------------------------------------------------------- *)
(** ** Exceptions as an error monad *)
(* ------------------------------------------------------------------- *)

(** The error kinds a construction can raise. *)
Inductive Error : Type :=
| SchemaInvariantViolation
| PartialResourceOptionsGroup
| UnrenderableType.

(** A Python call either returns a value or raises. *)
Inductive result (A : Type) : Type :=
| Ok (a : A)
| Raise (e : Error).

Arguments Ok {A} a.
Arguments Raise {A} e.

Definition bind {A B : Type} (c : result A) (k : A -> result B) : result B :=
  match c with
  | Ok a => k a
  | Raise e => Raise e
  end.

Notation "x <- c ;; k" := (bind c (fun x => k))
  (at level 61, c at next level, right associativity).

(** [tuple(f(a) for a in l)]: the elements are computed left to right and
    the first exception escapes. *)
Fixpoint mapM {A B : Type} (f : A -> result B) (l : list A) : result (list B) :=
  match l with
  | [] => Ok []
  | a :: t => b <- f a ;; bs <- mapM f t ;; Ok (b :: bs)
  end.

(** [', '.join(l)] is [String.concat ", " l]. *)
Definition join (sep : string) (l : list string) : string := String.concat sep l.

(* ------------------------------------------------------------------- *)
(** ** The schema model (tools.codegen.model) *)
(* ------------------------------------------------------------------- *)

(** Modelled from the spec: tools/codegen/model.py is not part of the
    sources.  The role tag of an argument: the receiver candidate and the
    four roles of a resource-options (TensorOptions) quadruple are
    recognised, every other argument is plain. *)
Inductive Role : Type :=
| RolePlain
| RoleReceiver
| RoleDtype
| RoleLayout
| RoleDevice
| RolePinMemory.

Definition Role_eqb (r s : Role) : bool :=
  match r, s with
  | RolePlain, RolePlain
  | RoleReceiver, RoleReceiver
  | RoleDtype, RoleDtype
  | RoleLayout, RoleLayout
  | RoleDevice, RoleDevice
  | RolePinMemory, RolePinMemory => true
  | _, _ => false
  end.

Module Argument.
(** Modelled from the spec: the Argument of tools/codegen/model.py, with
    its name, opaque type descriptor, optional default and role tag. *)
Record t : Type := mk {
  name : string;
  type : string;
  default : option string;
  role : Role
}.
End Argument.

Module Return.
(** Modelled from the spec: the Return of tools/codegen/model.py, a type
    descriptor. *)
Record t : Type := mk { type : string }.
End Return.

Module FunctionSchema.
(** Modelled from the spec: the FunctionSchema of tools/codegen/model.py.
    The is-method flag travels apart from the schema, as the [method]
    keyword of [CppSignatureGroup.from_schema]. *)
Record t : Type := mk {
  name : string;
  arguments : list Argument.t;
  returns : list Return.t
}.
End FunctionSchema.

(* ------------------------------------------------------------------- *)
(** ** Grouping arguments *)
(* ------------------------------------------------------------------- *)

Module ThisArgument.
Record t : Type := mk { argument : Argument.t }.
End ThisArgument.

Module TensorOptionsArguments.
Record t : Type := mk {
  dtype : Argument.t;
  layout : Argument.t;
  device : Argument.t;
  pin_memory : Argument.t
}.

Definition all (self : t) : list Argument.t :=
  [dtype self; layout self; device self; pin_memory self].
End TensorOptionsArguments.

(** [Union[Argument, TensorOptionsArguments, ThisArgument]], the element
    type of a grouped argument sequence. *)
Inductive GroupedArgument : Type :=
| GArgument (a : Argument.t)
| GTensorOptions (a : TensorOptionsArguments.t)
| GThis (a : ThisArgument.t).

(** [isinstance(a, TensorOptionsArguments)] *)
Definition is_TensorOptionsArguments (a : GroupedArgument) : bool :=
  match a with
  | GTensorOptions _ => true
  | _ => false
  end.


(** [Union[Argument, TensorOptionsArguments]], the back-reference of a
    rendered argument. *)
Definition ArgumentRef : Type := (Argument.t + TensorOptionsArguments.t)%type.

(** The schema arguments a back-reference stands for. *)
Definition ref_arguments (r : ArgumentRef) : list Argument.t :=
  match r with
  | inl a => [a]
  | inr b => TensorOptionsArguments.all b
  end.

(* ------------------------------------------------------------------- *)
(** ** cpp types *)
(* ------------------------------------------------------------------- *)

Module CppArgument.
Record t : Type := mk {
  type : string;
  name : string;
  default : option string;
  argument : ArgumentRef
}.

(** [__str__] *)
Definition str (self : t) : string :=
  let mb_default :=
    match default self with
    | Some d => "=" ++ d
    | None => ""
    end in
  type self ++ " " ++ name self ++ mb_default.

Definition no_default (self : t) : t :=
  mk (type self) (name self) None (argument self).

Definition str_no_default (self : t) : string :=
  type self ++ " " ++ name self.
End CppArgument.

(** The closed union [CppArgumentPack]; [no_default] and
    [explicit_arguments] of the three classes are the cases of one match. *)
Module CppArgumentPack.
Inductive t : Type :=
| CppSingleArgumentPack (this : CppArgument.t)
| CppThisArgumentPack (argument : ThisArgument.t) (type : string)
| CppTensorOptionsArgumentPack
    (argument : TensorOptionsArguments.t)
    (dtype layout device pin_memory : CppArgument.t).

Definition no_default (self : t) : t :=
  match self with
  | CppSingleArgumentPack this =>
      CppSingleArgumentPack (CppArgument.no_default this)
  | CppThisArgumentPack _ _ => self
  | CppTensorOptionsArgumentPack argument dtype layout device pin_memory =>
      CppTensorOptionsArgumentPack argument
        (CppArgument.no_default dtype)
        (CppArgument.no_default layout)
        (CppArgument.no_default device)
        (CppArgument.no_default pin_memory)
  end.

Definition explicit_arguments (self : t) : list CppArgument.t :=
  match self with
  | CppSingleArgumentPack this => [this]
  | CppThisArgumentPack _ _ => []
  | CppTensorOptionsArgumentPack _ dtype layout device pin_memory =>
      [dtype; layout; device; pin_memory]
  end.

Definition is_this (self : t) : bool :=
  match self with
  | CppThisArgumentPack _ _ => true
  | _ => false
  end.
End CppArgumentPack.

(** The functions of tools/codegen/api/cpp.py that types.py calls.  The
    module is not part of the sources: its functions are taken as they are
    called, each free to raise. *)
Record CppApi : Type := {
  cpp_name : FunctionSchema.t -> string;
  cpp_returns_type : list Return.t -> result string;
  cpp_argument : GroupedArgument -> result CppArgumentPack.t;
  cpp_argument_faithful : GroupedArgument -> result CppArgumentPack.t;
  cpp_group_arguments :
    FunctionSchema.t -> bool -> result (list GroupedArgument)
}.

Module CppSignature.
Record t : Type := mk {
  func : FunctionSchema.t;
  _argument_packs : list CppArgumentPack.t;
  _returns_type : string
}.

Definition arguments (self : t) : list CppArgument.t :=
  flat_map CppArgumentPack.explicit_arguments (_argument_packs self).

Definition argument_packs (self : t) : list CppArgumentPack.t :=
  _argument_packs self.

Definition decl (cpp : CppApi) (self : t) : string :=
  let cpp_args_str := join ", " (map CppArgument.str (arguments self)) in
  _returns_type self ++ " " ++ cpp_name cpp (func self)
    ++ "(" ++ cpp_args_str ++ ")".

(** [defn(self, name=None, *, prefix="")] *)
Definition defn (cpp : CppApi) (self : t)
    (name : option string) (prefix : string) : string :=
  let cpp_args_str :=
    join ", " (map CppArgument.str_no_default (arguments self)) in
  let name :=
    match name with
    | None => prefix ++ cpp_name cpp (func self)
    | Some n => n
    end in
  _returns_type self ++ " " ++ name ++ "(" ++ cpp_args_str ++ ")".

Definition _from_grouped_arguments (cpp : CppApi)
    (func : FunctionSchema.t) (arguments : list GroupedArgument)
    (faithful : bool) : result t :=
  argument_packs <-
    (if faithful
     then mapM (fun a => p <- cpp_argument_faithful cpp a ;;
                         Ok (CppArgumentPack.no_default p)) arguments
     else mapM (cpp_argument cpp) arguments) ;;
  returns_type <- cpp_returns_type cpp (FunctionSchema.returns func) ;;
  Ok (mk func argument_packs returns_type).
End CppSignature.

Module CppSignatureGroup.
Record t : Type := mk {
  func : FunctionSchema.t;
  signature : CppSignature.t;
  faithful_signature : option CppSignature.t
}.

Definition from_schema (cpp : CppApi)
    (func : FunctionSchema.t) (method : bool) : result t :=
  grouped_arguments <- cpp_group_arguments cpp func method ;;
  faithful_signature <-
    (if existsb is_TensorOptionsArguments grouped_arguments
     then s <- CppSignature._from_grouped_arguments
                 cpp func grouped_arguments true ;;
          Ok (Some s)
     else Ok None) ;;
  signature <- CppSignature._from_grouped_arguments
                 cpp func grouped_arguments false ;;
  Ok (mk func signature faithful_signature).
End CppSignatureGroup.

(* ------------------------------------------------------------------- *)
(** ** dispatcher types and native types *)
(* ------------------------------------------------------------------- *)

Module DispatcherArgument.
(** The dispatcher never has defaults: the record has no such field. *)
Record t : Type := mk {
  type : string;
  name : string;
  argument : ArgumentRef
}.

(** [__str__] *)
Definition str (self : t) : string := type self ++ " " ++ name self.
End DispatcherArgument.

Module NativeArgument.
Record t : Type := mk {
  type : string;
  name : string;
  default : option string;
  argument : ArgumentRef
}.

(** [__str__]: the convention is swapped, the plain form has no default. *)
Definition str (self : t) : string := type self ++ " " ++ name self.

Definition str_with_default (self : t) : string :=
  let mb_default :=
    match default self with
    | Some d => "=" ++ d
    | None => ""
    end in
  type self ++ " " ++ name self ++ mb_default.
End NativeArgument.

(** The functions of tools/codegen/api/dispatcher.py that types.py calls;
    the module is not part of the sources. *)
Record DispatcherApi : Type := {
  dispatcher_name : FunctionSchema.t -> string;
  dispatcher_returns_type : list Return.t -> result string;
  dispatcher_arguments : FunctionSchema.t -> result (list DispatcherArgument.t)
}.

(** The functions of tools/codegen/api/native.py that types.py calls; the
    module is not part of the sources. *)
Record NativeApi : Type := {
  native_name : FunctionSchema.t -> string;
  native_returns_type : list Return.t -> result string;
  native_arguments : FunctionSchema.t -> result (list NativeArgument.t)
}.

Module DispatcherSignature.
Record t : Type := mk {
  func : FunctionSchema.t;
  _arguments : list DispatcherArgument.t;
  _returns_type : string
}.

Definition arguments (self : t) : list DispatcherArgument.t :=
  _arguments self.

(** [defn(self, name=None)]; the name defaults to [native.name]. *)
Definition defn (native : NativeApi) (self : t)
    (name : option string) : string :=
  let args_str := join ", " (map DispatcherArgument.str (arguments self)) in
  let name :=
    match name with
    | None => native_name native (func self)
    | Some n => n
    end in
  _returns_type self ++ " " ++ name ++ "(" ++ args_str ++ ")".

Definition type (self : t) : string :=
  let dispatcher_args_types_str :=
    join ", " (map DispatcherArgument.type (_arguments self)) in
  _returns_type self ++ " (" ++ dispatcher_args_types_str ++ ")".

Definition from_schema (dispatcher : DispatcherApi)
    (func : FunctionSchema.t) : result t :=
  arguments <- dispatcher_arguments dispatcher func ;;
  returns_type <-
    dispatcher_returns_type dispatcher (FunctionSchema.returns func) ;;
  Ok (mk func arguments returns_type).
End DispatcherSignature.

Module NativeSignature.
Record t : Type := mk {
  func : FunctionSchema.t;
  _arguments : list NativeArgument.t;
  _returns_type : string
}.

Definition arguments (self : t) : list NativeArgument.t :=
  _arguments self.

(** [defn(self, name=None)]; the name defaults to [dispatcher.name]. *)
Definition defn (dispatcher : DispatcherApi) (self : t)
    (name : option string) : string :=
  let args_str := join ", " (map NativeArgument.str (arguments self)) in
  let name :=
    match name with
    | None => dispatcher_name dispatcher (func self)
    | Some n => n
    end in
  _returns_type self ++ " " ++ name ++ "(" ++ args_str ++ ")".

Definition from_schema (native : NativeApi)
    (func : FunctionSchema.t) : result t :=
  arguments <- native_arguments native func ;;
  returns_type <- native_returns_type native (FunctionSchema.returns func) ;;
  Ok (mk func arguments returns_type).
End NativeSignature.

(* ------------------------------------------------------------------- *)
(** ** The api functions, from the specification *)
(* ------------------------------------------------------------------- *)

(** Modelled from the spec: what the api modules, which are not part of
    the sources, leave open for a surface: the name it gives a schema, and
    its tables from type descriptors to type strings, which raise
    [UnrenderableType] on a descriptor they do not map. *)
Record Rendering : Type := {
  render_name : FunctionSchema.t -> string;
  render_type : string -> result string;
  render_returns : list Return.t -> result string
}.

(** Modelled from the spec: role recognition, by the role tag. *)
Definition has_role (r : Role) (a : Argument.t) : bool :=
  Role_eqb (Argument.role a) r.

(** Modelled from the spec: the four roles of a resource-options
    quadruple, for [cpp.group_arguments]. *)
Definition options_roles : list Role :=
  [RoleDtype; RoleLayout; RoleDevice; RolePinMemory].

(** Modelled from the spec: whether an argument fills one of the four
    roles. *)
Definition is_options_role (a : Argument.t) : bool :=
  existsb (fun r => has_role r a) options_roles.

(** Modelled from the spec: how many of the four roles occur somewhere in
    the argument list, for [cpp.group_arguments]. *)
Definition roles_present (args : list Argument.t) : nat :=
  length (filter (fun r => existsb (has_role r) args) options_roles).

(** Modelled from the spec: the first argument of role [r] taken out of
    the list, for [cpp.group_arguments]. *)
Fixpoint extract (r : Role) (l : list Argument.t)
    : option (Argument.t * list Argument.t) :=
  match l with
  | [] => None
  | a :: t =>
      if has_role r a then Some (a, t)
      else match extract r t with
           | Some (x, t') => Some (x, a :: t')
           | None => None
           end
  end.

(** Modelled from the spec: the number of arguments before the first one
    with an options role, for [cpp.group_arguments]. *)
Fixpoint leading_plain (l : list Argument.t) : nat :=
  match l with
  | [] => 0
  | a :: t => if is_options_role a then 0 else S (leading_plain t)
  end.

(** Modelled from the spec: the quadruple of [cpp.group_arguments], one
    argument per role wherever it stands, and the arguments left over. *)
Definition bundle (l : list Argument.t)
    : option (TensorOptionsArguments.t * list Argument.t) :=
  match extract RoleDtype l with
  | None => None
  | Some (dtype, l1) =>
      match extract RoleLayout l1 with
      | None => None
      | Some (layout, l2) =>
          match extract RoleDevice l2 with
          | None => None
          | Some (device, l3) =>
              match extract RolePinMemory l3 with
              | None => None
              | Some (pin_memory, l4) =>
                  Some (TensorOptionsArguments.mk
                          dtype layout device pin_memory, l4)
              end
          end
      end
  end.

(** Modelled from the spec: the grouping of [cpp.group_arguments] short of
    the receiver; the bundle stands where the first argument of the
    quadruple stood. *)
Definition group_options (l : list Argument.t) : list GroupedArgument :=
  match bundle l with
  | Some (b, rest) =>
      let k := leading_plain l in
      (map GArgument (firstn k rest)
         ++ GTensorOptions b :: map GArgument (skipn k rest))%list
  | None => map GArgument l
  end.

Module Cpp.
(** Modelled from the spec: [cpp.group_arguments] of
    tools/codegen/api/cpp.py, the Argument Grouper.  A bundle forms iff
    all four roles are present anywhere in the argument list; one to
    three roles raise [PartialResourceOptionsGroup]; for a method the
    first argument is marked as the receiver, and a missing or
    ineligible one raises [SchemaInvariantViolation]. *)
Definition group_arguments (func : FunctionSchema.t) (method : bool)
    : result (list GroupedArgument) :=
  let args := FunctionSchema.arguments func in
  let n := roles_present args in
  if ((0 <? n) && (n <? 4))%nat then Raise PartialResourceOptionsGroup
  else if method then
    match args with
    | a :: rest =>
        if has_role RoleReceiver a
        then Ok (GThis (ThisArgument.mk a) :: group_options rest)
        else Raise SchemaInvariantViolation
    | [] => Raise SchemaInvariantViolation
    end
  else Ok (group_options args).

(** Modelled from the spec: the front argument that [cpp.argument]
    makes of one schema argument, its rendered type, its name and its
    default, pointing back at it. *)
Definition single (R : Rendering) (a : Argument.t) : result CppArgument.t :=
  ty <- render_type R (Argument.type a) ;;
  Ok (CppArgument.mk ty (Argument.name a) (Argument.default a) (inl a)).

(** Modelled from the spec: whether a schema argument has a default,
    for the default of the composite argument. *)
Definition has_default (a : Argument.t) : bool :=
  match Argument.default a with
  | Some _ => true
  | None => false
  end.

(** Modelled from the spec: [cpp.argument] of tools/codegen/api/cpp.py,
    the default mode of the Front-Surface Builder.  A bundle becomes one
    argument of the composite type, defaulted only if all four underlying
    arguments are; the receiver becomes a receiver pack. *)
Definition argument (R : Rendering) (a : GroupedArgument)
    : result CppArgumentPack.t :=
  match a with
  | GArgument a =>
      c <- single R a ;; Ok (CppArgumentPack.CppSingleArgumentPack c)
  | GThis t =>
      ty <- render_type R (Argument.type (ThisArgument.argument t)) ;;
      Ok (CppArgumentPack.CppThisArgumentPack t ty)
  | GTensorOptions b =>
      Ok (CppArgumentPack.CppSingleArgumentPack
            (CppArgument.mk "ResourceOptions" "options"
               (if forallb has_default (TensorOptionsArguments.all b)
                then Some "{}" else None)
               (inr b)))
  end.

(** Modelled from the spec: [cpp.argument_faithful] of
    tools/codegen/api/cpp.py, the faithful mode of the Front-Surface
    Builder: a bundle explodes back into four explicit arguments. *)
Definition argument_faithful (R : Rendering) (a : GroupedArgument)
    : result CppArgumentPack.t :=
  match a with
  | GTensorOptions b =>
      dtype <- single R (TensorOptionsArguments.dtype b) ;;
      layout <- single R (TensorOptionsArguments.layout b) ;;
      device <- single R (TensorOptionsArguments.device b) ;;
      pin_memory <- single R (TensorOptionsArguments.pin_memory b) ;;
      Ok (CppArgumentPack.CppTensorOptionsArgumentPack
            b dtype layout device pin_memory)
  | _ => argument R a
  end.

(** The functions above as types.py calls them. *)
Definition api (R : Rendering) : CppApi :=
  {| cpp_name := render_name R;
     cpp_returns_type := render_returns R;
     cpp_argument := argument R;
     cpp_argument_faithful := argument_faithful R;
     cpp_group_arguments := group_arguments |}.
End Cpp.

Module Dispatcher.
(** Modelled from the spec: [dispatcher.arguments] of
    tools/codegen/api/dispatcher.py, the Dispatch-Surface Builder: the
    raw schema flattened, no grouping, no defaults. *)
Definition arguments (R : Rendering) (func : FunctionSchema.t)
    : result (list DispatcherArgument.t) :=
  mapM (fun a =>
          ty <- render_type R (Argument.type a) ;;
          Ok (DispatcherArgument.mk ty (Argument.name a) (inl a)))
       (FunctionSchema.arguments func).

(** The functions above as types.py calls them. *)
Definition api (R : Rendering) : DispatcherApi :=
  {| dispatcher_name := render_name R;
     dispatcher_returns_type := render_returns R;
     dispatcher_arguments := arguments R |}.
End Dispatcher.

Module Native.
(** Modelled from the spec: [native.arguments] of
    tools/codegen/api/native.py, the Implementation-Surface Builder: the
    raw schema flattened, each argument keeping its original default. *)
Definition arguments (R : Rendering) (func : FunctionSchema.t)
    : result (list NativeArgument.t) :=
  mapM (fun a =>
          ty <- render_type R (Argument.type a) ;;
          Ok (NativeArgument.mk ty (Argument.name a)
                (Argument.default a) (inl a)))
       (FunctionSchema.arguments func).

(** The functions above as types.py calls them. *)
Definition api (R : Rendering) : NativeApi :=
  {| native_name := render_name R;
     native_returns_type := render_returns R;
     native_arguments := arguments R |}.
End Native.

(* ------------------------------------------------------------------- *)
(** ** A worked schema *)
(* ------------------------------------------------------------------- *)

(** The type table of the worked example: an optional descriptor [T?]
    renders as [Optional<T>], [int] as [Int64]. *)
Definition example_type (d : string) : result string :=
  if String.eqb d "Value" then Ok "Value"
  else if String.eqb d "int" then Ok "Int64"
  else if String.eqb d "PrecisionKind?" then Ok "Optional<PrecisionKind>"
  else if String.eqb d "LayoutKind?" then Ok "Optional<LayoutKind>"
  else if String.eqb d "DeviceKind?" then Ok "Optional<DeviceKind>"
  else if String.eqb d "bool?" then Ok "Optional<bool>"
  else Raise UnrenderableType.

Definition example_returns (l : list Return.t) : result string :=
  match l with
  | [r] => example_type (Return.type r)
  | _ => Raise UnrenderableType
  end.

Definition example_rendering : Rendering :=
  {| render_name := FunctionSchema.name;
     render_type := example_type;
     render_returns := example_returns |}.

Definition arg_self : Argument.t :=
  Argument.mk "self" "Value" None RoleReceiver.
Definition arg_n : Argument.t :=
  Argument.mk "n" "int" None RolePlain.
Definition arg_precision : Argument.t :=
  Argument.mk "precision" "PrecisionKind?" (Some "None") RoleDtype.
Definition arg_layout : Argument.t :=
  Argument.mk "layout" "LayoutKind?" (Some "None") RoleLayout.
Definition arg_device : Argument.t :=
  Argument.mk "device" "DeviceKind?" (Some "None") RoleDevice.
Definition arg_pinned : Argument.t :=
  Argument.mk "pinned" "bool?" (Some "None") RolePinMemory.

(** [foo(Value self, int n, PrecisionKind? precision=None,
    LayoutKind? layout=None, DeviceKind? device=None, bool? pinned=None)
    -> Value] *)
Definition foo : FunctionSchema.t :=
  FunctionSchema.mk "foo"
    [arg_self; arg_n; arg_precision; arg_layout; arg_device; arg_pinned]
    [Return.mk "Value"].

(** A schema with two of the four roles. *)
Definition foo_partial : FunctionSchema.t :=
  FunctionSchema.mk "foo" [arg_self; arg_n; arg_precision; arg_layout]
    [Return.mk "Value"].

(** A schema with none of the four roles. *)
Definition foo_plain : FunctionSchema.t :=
  FunctionSchema.mk "foo" [arg_self; arg_n] [Return.mk "Value"].

(** A dispatcher signature returning [int] and taking one [bool]. *)
Definition bool_signature : DispatcherSignature.t :=
  DispatcherSignature.mk foo_plain
    [DispatcherArgument.mk "bool" "flag" (inl arg_n)] "int".

(** A native signature whose one argument stores a default. *)
Definition pinned_signature : NativeSignature.t :=
  NativeSignature.mk foo
    [NativeArgument.mk "Optional<bool>" "pinned" (Some "None")
       (inl arg_pinned)]
    "Value".

(** The grouped arguments of [foo] as a method. *)
Definition foo_grouped : list GroupedArgument :=
  [GThis (ThisArgument.mk arg_self); GArgument arg_n;
   GTensorOptions
     (TensorOptionsArguments.mk arg_precision arg_layout arg_device
        arg_pinned)].

(* ------------------------------------------------------------------- *)
(** ** Views of a signature used by the statements *)
(* ------------------------------------------------------------------- *)

(** The schema arguments a grouped argument covers. *)
Definition grouped_arguments_of (a : GroupedArgument) : list Argument.t :=
  match a with
  | GArgument a => [a]
  | GTensorOptions b => TensorOptionsArguments.all b
  | GThis t => [ThisArgument.argument t]
  end.

Definition cpp_type_name (a : CppArgument.t) : string * string :=
  (CppArgument.type a, CppArgument.name a).

Definition native_type_name (a : NativeArgument.t) : string * string :=
  (NativeArgument.type a, NativeArgument.name a).




(** The schema arguments behind a pack, the receiver included. *)
Definition pack_sources (p : CppArgumentPack.t) : list Argument.t :=
  match p with
  | CppArgumentPack.CppThisArgumentPack a _ => [ThisArgument.argument a]
  | _ => flat_map (fun a => ref_arguments (CppArgument.argument a))
                  (CppArgumentPack.explicit_arguments p)
  end.




(** The signature with every pack stripped of its defaults. *)
Definition strip_defaults (s : CppSignature.t) : CppSignature.t :=
  CppSignature.mk (CppSignature.func s)
    (map CppArgumentPack.no_default (CppSignature._argument_packs s))
    (CppSignature._returns_type s).

(** The parameter text of the specification, ["<Type> <name>=<default>"],
    the last part left out where there is no default or none is wanted. *)
Definition spec_param (with_default : bool) (a : CppArgument.t) : string :=
  CppArgument.type a ++ " " ++ CppArgument.name a
    ++ (if with_default
        then match CppArgument.default a with
             | Some d => "=" ++ d
             | None => ""
             end
        else "").

(** The parameter list of the specification, its entries separated by a
    comma and a space. *)
Fixpoint spec_params (with_default : bool) (l : list CppArgument.t) : string :=
  match l with
  | [] => ""
  | [a] => spec_param with_default a
  | a :: t => spec_param with_default a ++ ", " ++ spec_params with_default t
  end.

(** The type string a table gives a descriptor, empty where it raises. *)
Definition rendered (R : Rendering) (d : string) : string :=
  match render_type R d with
  | Ok s => s
  | Raise _ => ""
  end.


(** [type] of a pack: the property of a single pack, the field of a
    receiver pack; a TensorOptions pack has no such attribute. *)
Definition pack_type (p : CppArgumentPack.t) : option string :=
  match p with
  | CppArgumentPack.CppSingleArgumentPack this => Some (CppArgument.type this)
  | CppArgumentPack.CppThisArgumentPack _ ty => Some ty
  | CppArgumentPack.CppTensorOptionsArgumentPack _ _ _ _ _ => None
  end.

(** [isinstance(p, CppSingleArgumentPack)] *)
Definition is_single (p : CppArgumentPack.t) : bool :=
  match p with
  | CppArgumentPack.CppSingleArgumentPack _ => true
  | _ => false
  end.

(** [isinstance(p, CppTensorOptionsArgumentPack)] *)
Definition is_tensor_options (p : CppArgumentPack.t) : bool :=
  match p with
  | CppArgumentPack.CppTensorOptionsArgumentPack _ _ _ _ _ => true
  | _ => false
  end.

Definition dispatcher_type_name (a : DispatcherArgument.t) : string * string :=
  (DispatcherArgument.type a, DispatcherArgument.name a).

(** The text of a parameter without default, from its type and name. *)
Definition plain_param (tn : string * string) : string :=
  fst tn ++ " " ++ snd tn.

(** An argument whose type descriptor the worked table does not map. *)
Definition arg_mystery : Argument.t :=
  Argument.mk "x" "Mystery" None RolePlain.

(** Grouped arguments the second of which has no rendered type. *)
Definition mystery_grouped : list GroupedArgument :=
  [GArgument arg_n; GArgument arg_mystery; GArgument arg_self].

(** A schema whose return type has no rendering either. *)
Definition mystery_schema : FunctionSchema.t :=
  FunctionSchema.mk "bar" [arg_n; arg_mystery; arg_self]
    [Return.mk "Mystery"].

(** Type tables as the worked one but for the strings they give the
    descriptors [Value] and [int]. *)
Definition surface_type (value int : string) (d : string) : result string :=
  if String.eqb d "Value" then Ok value
  else if String.eqb d "int" then Ok int
  else example_type d.

Definition surface_returns (value int : string) (l : list Return.t)
    : result string :=
  match l with
  | [r] => surface_type value int (Return.type r)
  | _ => Raise UnrenderableType
  end.

Definition surface_rendering (value int : string) : Rendering :=
  {| render_name := FunctionSchema.name;
     render_type := surface_type value int;
     render_returns := surface_returns value int |}.

(** A dispatcher table that passes a [Value] by constant reference. *)
Definition dispatch_rendering : Rendering :=
  surface_rendering "const Value &" "int64_t".

(** A native table that passes a [Value] by reference. *)
Definition native_rendering : Rendering :=
  surface_rendering "Value &" "int64_t".

(** The table has a type string for the descriptor of the argument. *)
Definition renderable (R : Rendering) (a : Argument.t) : Prop :=
  exists ty, render_type R (Argument.type a) = Ok ty.


(* ------------------------------------------------------------------- *)
(** ** Strings and parameter lists *)
(* ------------------------------------------------------------------- *)

Lemma append_empty_r (s : string) : s ++ "" = s.
Proof.
  induction s as [|c s IH]; simpl; [reflexivity | now rewrite IH].
Qed.

Lemma append_assoc (s t u : string) : (s ++ t) ++ u = s ++ t ++ u.
Proof.
  induction s as [|c s IH]; simpl; [reflexivity | now rewrite IH].
Qed.

Lemma str_is_spec_param (a : CppArgument.t) :
  CppArgument.str a = spec_param true a.
Proof. reflexivity. Qed.

Lemma str_no_default_is_spec_param (a : CppArgument.t) :
  CppArgument.str_no_default a = spec_param false a.
Proof.
  unfold CppArgument.str_no_default, spec_param.
  now rewrite append_empty_r.
Qed.

Lemma join_spec_params (f : CppArgument.t -> string) (b : bool)
    (l : list CppArgument.t) :
  (forall a, f a = spec_param b a) ->
  join ", " (map f l) = spec_params b l.
Proof.
  intros Hf. unfold join.
  induction l as [|a t IH]; [reflexivity|].
  destruct t as [|a' t'].
  - simpl. apply Hf.
  - change (f a ++ ", " ++ String.concat ", " (map f (a' :: t'))
            = spec_param b a ++ ", " ++ spec_params b (a' :: t')).
    now rewrite IH, Hf.
Qed.

Lemma spec_param_no_default (b : bool) (a : CppArgument.t) :
  spec_param b (CppArgument.no_default a) = spec_param false a.
Proof.
  unfold spec_param. destruct b; reflexivity.
Qed.

Lemma spec_params_no_default (b : bool) (l : list CppArgument.t) :
  spec_params b (map CppArgument.no_default l) = spec_params false l.
Proof.
  induction l as [|a t IH]; [reflexivity|].
  destruct t as [|a' t'].
  - simpl. apply spec_param_no_default.
  - change (spec_param b (CppArgument.no_default a) ++ ", "
              ++ spec_params b (map CppArgument.no_default (a' :: t'))
            = spec_param false a ++ ", " ++ spec_params false (a' :: t')).
    now rewrite IH, spec_param_no_default.
Qed.

Lemma explicit_arguments_no_default (p : CppArgumentPack.t) :
  CppArgumentPack.explicit_arguments (CppArgumentPack.no_default p)
  = map CppArgument.no_default (CppArgumentPack.explicit_arguments p).
Proof. destruct p; reflexivity. Qed.

Lemma arguments_strip_defaults (s : CppSignature.t) :
  CppSignature.arguments (strip_defaults s)
  = map CppArgument.no_default (CppSignature.arguments s).
Proof.
  unfold CppSignature.arguments, strip_defaults; simpl.
  induction (CppSignature._argument_packs s) as [|p l IH]; [reflexivity|].
  simpl. now rewrite map_app, IH, explicit_arguments_no_default.
Qed.

(* ------------------------------------------------------------------- *)
(** ** Default stripping of one argument *)
(* ------------------------------------------------------------------- *)

(** C9: [CppArgument.no_default] returns a value whose default is [None]
    and whose type, name and argument back-reference are those of the
    original, which stays as it was; applying it twice is the same as
    applying it once. *)
Theorem no_default_sibling (a : CppArgument.t) :
  CppArgument.default (CppArgument.no_default a) = None /\
  CppArgument.type (CppArgument.no_default a) = CppArgument.type a /\
  CppArgument.name (CppArgument.no_default a) = CppArgument.name a /\
  CppArgument.argument (CppArgument.no_default a) = CppArgument.argument a /\
  CppArgument.no_default (CppArgument.no_default a) = CppArgument.no_default a.
Proof. repeat split. Qed.

(* ------------------------------------------------------------------- *)
(** ** Declaration and definition text of the C++ API *)
(* ------------------------------------------------------------------- *)

(** C10: with an explicit name, [defn] renders that name verbatim whatever
    the prefix; the prefix goes in front of the schema-derived name only
    when no name is given. *)
Theorem defn_explicit_name_ignores_prefix
    (cpp : CppApi) (s : CppSignature.t) (n p q : string) :
  CppSignature.defn cpp s (Some n) p = CppSignature.defn cpp s (Some n) q /\
  CppSignature.defn cpp s (Some n) p
  = CppSignature._returns_type s ++ " " ++ n ++ "("
      ++ join ", " (map CppArgument.str_no_default (CppSignature.arguments s))
      ++ ")" /\
  CppSignature.defn cpp s None p
  = CppSignature._returns_type s ++ " "
      ++ (p ++ cpp_name cpp (CppSignature.func s)) ++ "("
      ++ join ", " (map CppArgument.str_no_default (CppSignature.arguments s))
      ++ ")".
Proof. repeat split. Qed.

(** C6: [decl] renders the return type, the name and the parameter list
    with each default attached where there is one; [defn] without a name
    and with the empty prefix renders the same parameter list with every
    default left out, which is the declaration of the signature stripped of
    its defaults; an explicit name replaces the schema-derived one and a
    prefix goes in front of it. *)
Theorem decl_defn_render (cpp : CppApi) (s : CppSignature.t) :
  CppSignature.decl cpp s
  = CppSignature._returns_type s ++ " " ++ cpp_name cpp (CppSignature.func s)
      ++ "(" ++ spec_params true (CppSignature.arguments s) ++ ")" /\
  CppSignature.defn cpp s None ""
  = CppSignature._returns_type s ++ " " ++ cpp_name cpp (CppSignature.func s)
      ++ "(" ++ spec_params false (CppSignature.arguments s) ++ ")" /\
  CppSignature.defn cpp s None "" = CppSignature.decl cpp (strip_defaults s) /\
  (forall n p,
      CppSignature.defn cpp s (Some n) p
      = CppSignature._returns_type s ++ " " ++ n
          ++ "(" ++ spec_params false (CppSignature.arguments s) ++ ")") /\
  (forall p,
      CppSignature.defn cpp s None p
      = CppSignature._returns_type s ++ " "
          ++ (p ++ cpp_name cpp (CppSignature.func s))
          ++ "(" ++ spec_params false (CppSignature.arguments s) ++ ")").
Proof.
  assert (Hd : join ", " (map CppArgument.str (CppSignature.arguments s))
               = spec_params true (CppSignature.arguments s))
    by (apply join_spec_params, str_is_spec_param).
  assert (Hn : join ", " (map CppArgument.str_no_default
                            (CppSignature.arguments s))
               = spec_params false (CppSignature.arguments s))
    by (apply join_spec_params, str_no_default_is_spec_param).
  unfold CppSignature.decl, CppSignature.defn.
  rewrite Hn.
  repeat split.
  - now rewrite Hd.
  - rewrite arguments_strip_defaults.
    rewrite (join_spec_params _ true) by apply str_is_spec_param.
    now rewrite spec_params_no_default.
Qed.

(* ------------------------------------------------------------------- *)
(** ** Text of the dispatcher and native surfaces *)
(* ------------------------------------------------------------------- *)

(** C5: a dispatcher argument has a type, a name and a back-reference and
    nothing else; it renders as its type, a space and its name, which is
    the default-free form of a C++ API argument of that type and name
    whatever default that one carries, and [defn] renders every argument
    so. *)
Theorem dispatcher_defn_no_default
    (native : NativeApi) (s : DispatcherSignature.t) (name : option string) :
  (forall ty nm ref,
      DispatcherArgument.str (DispatcherArgument.mk ty nm ref)
      = ty ++ " " ++ nm) /\
  (forall (a : DispatcherArgument.t) (d : option string),
      DispatcherArgument.str a
      = CppArgument.str_no_default
          (CppArgument.mk (DispatcherArgument.type a)
             (DispatcherArgument.name a) d (DispatcherArgument.argument a))) /\
  DispatcherSignature.defn native s name
  = DispatcherSignature._returns_type s ++ " "
      ++ match name with
         | Some n => n
         | None => native_name native (DispatcherSignature.func s)
         end
      ++ "("
      ++ join ", "
           (map (fun a => DispatcherArgument.type a ++ " "
                            ++ DispatcherArgument.name a)
                (DispatcherSignature.arguments s))
      ++ ")".
Proof. repeat split. Qed.

(** C7, as stated, fails: for a signature returning [int] and taking one
    [bool], [type] is not the returns type immediately followed by the
    parenthesised argument types. *)
Lemma dispatcher_type_not_adjacent :
  DispatcherSignature.type bool_signature = "int (bool)" /\
  DispatcherSignature.type bool_signature
  <> DispatcherSignature._returns_type bool_signature ++ "("
       ++ join ", " (map DispatcherArgument.type
                       (DispatcherSignature.arguments bool_signature))
       ++ ")".
Proof. split; [reflexivity | discriminate]. Qed.

(** C7, amended: [type] renders the returns type, one space, and the
    parenthesised argument types separated by a comma and a space. *)
Theorem dispatcher_type_render (s : DispatcherSignature.t) :
  DispatcherSignature.type s
  = DispatcherSignature._returns_type s ++ " " ++ "("
      ++ join ", " (map DispatcherArgument.type
                      (DispatcherSignature.arguments s))
      ++ ")".
Proof. reflexivity. Qed.

(** C8, as stated, fails: the definition of a native signature whose one
    argument stores the default [None] does not attach it. *)
Lemma native_defn_drops_default :
  NativeSignature.defn (Dispatcher.api example_rendering)
    pinned_signature None
  = "Value foo(Optional<bool> pinned)" /\
  NativeSignature.defn (Dispatcher.api example_rendering)
    pinned_signature None
  <> NativeSignature._returns_type pinned_signature ++ " " ++ "foo" ++ "("
       ++ join ", " (map NativeArgument.str_with_default
                       (NativeSignature.arguments pinned_signature))
       ++ ")".
Proof. split; [reflexivity | discriminate]. Qed.

(* ------------------------------------------------------------------- *)
(** ** Sequences built under exceptions *)
(* ------------------------------------------------------------------- *)

Lemma bind_Ok_inv {A B : Type} (c : result A) (k : A -> result B) (b : B) :
  (x <- c ;; k x) = Ok b -> exists a, c = Ok a /\ k a = Ok b.
Proof.
  destruct c as [a|e]; simpl; [eauto | discriminate].
Qed.

Lemma mapM_bind_map {A B C : Type} (f : A -> result B) (g : B -> C)
    (l : list A) :
  mapM (fun a => p <- f a ;; Ok (g p)) l
  = (ps <- mapM f l ;; Ok (map g ps)).
Proof.
  induction l as [|a t IH]; [reflexivity|].
  simpl. destruct (f a) as [b|e]; simpl; [|reflexivity].
  rewrite IH. destruct (mapM f t); reflexivity.
Qed.

Lemma mapM_Ok_Forall2 {A B : Type} (f : A -> result B) (l : list A)
    (bs : list B) :
  mapM f l = Ok bs <-> Forall2 (fun a b => f a = Ok b) l bs.
Proof.
  revert bs. induction l as [|a t IH]; intros bs; simpl.
  - split.
    + intros H. injection H as <-. constructor.
    + intros H. inversion H. reflexivity.
  - split.
    + intros H. apply bind_Ok_inv in H as (b & Hb & H).
      apply bind_Ok_inv in H as (bs' & Hbs & H).
      injection H as <-. constructor; [assumption|]. now apply IH.
    + intros H. inversion H as [|? b ? bs' Hb Hbs]; subst.
      rewrite Hb. simpl. apply IH in Hbs. now rewrite Hbs.
Qed.

(* ------------------------------------------------------------------- *)
(** ** The faithful signature *)
(* ------------------------------------------------------------------- *)

Lemma from_grouped_arguments_inv (cpp : CppApi) (func : FunctionSchema.t)
    (grouped : list GroupedArgument) (faithful : bool) (s : CppSignature.t) :
  CppSignature._from_grouped_arguments cpp func grouped faithful = Ok s ->
  exists packs rt,
    mapM (if faithful then cpp_argument_faithful cpp else cpp_argument cpp)
         grouped = Ok packs /\
    cpp_returns_type cpp (FunctionSchema.returns func) = Ok rt /\
    s = CppSignature.mk func
          (if faithful then map CppArgumentPack.no_default packs else packs)
          rt.
Proof.
  unfold CppSignature._from_grouped_arguments. intros H.
  apply bind_Ok_inv in H as (packs & Hp & H).
  apply bind_Ok_inv in H as (rt & Hrt & H).
  injection H as <-.
  destruct faithful.
  - rewrite mapM_bind_map in Hp.
    apply bind_Ok_inv in Hp as (ps & Hps & Hp). injection Hp as <-.
    now exists ps, rt.
  - now exists packs, rt.
Qed.

Lemma from_grouped_arguments_intro (cpp : CppApi) (func : FunctionSchema.t)
    (grouped : list GroupedArgument) (faithful : bool)
    (packs : list CppArgumentPack.t) (rt : string) :
  mapM (if faithful then cpp_argument_faithful cpp else cpp_argument cpp)
       grouped = Ok packs ->
  cpp_returns_type cpp (FunctionSchema.returns func) = Ok rt ->
  CppSignature._from_grouped_arguments cpp func grouped faithful
  = Ok (CppSignature.mk func
          (if faithful then map CppArgumentPack.no_default packs else packs)
          rt).
Proof.
  intros Hp Hrt. unfold CppSignature._from_grouped_arguments.
  destruct faithful.
  - rewrite mapM_bind_map, Hp. simpl. now rewrite Hrt.
  - rewrite Hp. simpl. now rewrite Hrt.
Qed.

Lemma no_default_arguments_None (packs : list CppArgumentPack.t) :
  Forall (fun a => CppArgument.default a = None)
    (flat_map CppArgumentPack.explicit_arguments
       (map CppArgumentPack.no_default packs)).
Proof.
  apply Forall_forall. intros a Ha.
  apply in_flat_map in Ha as (p & Hp & Ha).
  apply in_map_iff in Hp as (p0 & <- & _).
  rewrite explicit_arguments_no_default in Ha.
  apply in_map_iff in Ha as (a0 & <- & _). reflexivity.
Qed.

(** C2: the faithful signature holds the packs of [cpp.argument_faithful],
    each one stripped by [no_default], the four constituents of a
    TensorOptions pack included, so that every explicit argument of the
    signature has default [None]; and it is built whenever the packs and
    the return type are. *)
Theorem faithful_signature_no_defaults
    (cpp : CppApi) (func : FunctionSchema.t)
    (grouped : list GroupedArgument) :
  (forall s,
      CppSignature._from_grouped_arguments cpp func grouped true = Ok s ->
      (exists packs,
          mapM (cpp_argument_faithful cpp) grouped = Ok packs /\
          CppSignature._argument_packs s
          = map CppArgumentPack.no_default packs) /\
      Forall (fun a => CppArgument.default a = None)
             (CppSignature.arguments s)) /\
  (forall b dtype layout device pin_memory,
      CppArgumentPack.explicit_arguments
        (CppArgumentPack.no_default
           (CppArgumentPack.CppTensorOptionsArgumentPack
              b dtype layout device pin_memory))
      = [CppArgument.no_default dtype; CppArgument.no_default layout;
         CppArgument.no_default device; CppArgument.no_default pin_memory]) /\
  (forall packs rt,
      mapM (cpp_argument_faithful cpp) grouped = Ok packs ->
      cpp_returns_type cpp (FunctionSchema.returns func) = Ok rt ->
      CppSignature._from_grouped_arguments cpp func grouped true
      = Ok (CppSignature.mk func
              (map CppArgumentPack.no_default packs) rt)).
Proof.
  split; [|split].
  - intros s H.
    apply from_grouped_arguments_inv in H as (packs & rt & Hp & _ & ->).
    split.
    + now exists packs.
    + apply no_default_arguments_None.
  - reflexivity.
  - intros packs rt Hp Hrt.
    now apply (from_grouped_arguments_intro cpp func grouped true).
Qed.

(** The faithful signature of [foo] exists and none of its five explicit
    arguments has a default. *)
Lemma faithful_signature_no_defaults_witness :
  exists s,
    CppSignature._from_grouped_arguments
      (Cpp.api example_rendering) foo foo_grouped true = Ok s /\
    length (CppSignature.arguments s) = 5 /\
    Forall (fun a => CppArgument.default a = None) (CppSignature.arguments s).
Proof.
  eexists. split; [reflexivity|]. split; [reflexivity|].
  destruct (faithful_signature_no_defaults
              (Cpp.api example_rendering) foo foo_grouped) as [H _].
  exact (proj2 (H _ eq_refl)).
Defined.

(* ------------------------------------------------------------------- *)
(** ** The argument grouper *)
(* ------------------------------------------------------------------- *)

Lemma Role_eqb_eq (r s : Role) : Role_eqb r s = true <-> r = s.
Proof.
  destruct r, s; simpl; split; intros H;
    try reflexivity; try discriminate.
Qed.

Lemma has_role_other (r s : Role) (a : Argument.t) :
  has_role r a = true -> r <> s -> has_role s a = false.
Proof.
  unfold has_role. intros Hr Hneq.
  apply Role_eqb_eq in Hr.
  destruct (Role_eqb (Argument.role a) s) eqn:E; [|reflexivity].
  apply Role_eqb_eq in E. congruence.
Qed.

Lemma extract_None (r : Role) (l : list Argument.t) :
  extract r l = None <-> existsb (has_role r) l = false.
Proof.
  induction l as [|a t IH]; simpl.
  - tauto.
  - destruct (has_role r a); simpl.
    + split; discriminate.
    + destruct (extract r t) as [[x t']|].
      * split; [discriminate|]. intros H. apply IH in H. discriminate.
      * split; [|reflexivity]. intros _. now apply IH.
Qed.

Lemma extract_Some (r : Role) (l : list Argument.t)
    (x : Argument.t) (l' : list Argument.t) :
  extract r l = Some (x, l') ->
  has_role r x = true /\
  Permutation l (x :: l') /\
  (forall s, r <> s ->
             existsb (has_role s) l' = existsb (has_role s) l).
Proof.
  revert l'. induction l as [|a t IH]; intros l'; simpl; [discriminate|].
  destruct (has_role r a) eqn:Ha.
  - intros H. injection H as <- <-.
    split; [assumption|]. split; [reflexivity|].
    intros s Hs. simpl. now rewrite (has_role_other r s a Ha Hs).
  - destruct (extract r t) as [[y t']|]; [|discriminate].
    intros H. injection H as <- <-.
    destruct (IH t' eq_refl) as (Hy & Hp & He).
    split; [assumption|]. split.
    + rewrite Hp. apply perm_swap.
    + intros s Hs. simpl. now rewrite He.
Qed.

(** The four roles are present iff each one occurs. *)
Lemma roles_present_4 (l : list Argument.t) :
  roles_present l = 4 <->
  existsb (has_role RoleDtype) l = true /\
  existsb (has_role RoleLayout) l = true /\
  existsb (has_role RoleDevice) l = true /\
  existsb (has_role RolePinMemory) l = true.
Proof.
  unfold roles_present, options_roles. simpl.
  destruct (existsb (has_role RoleDtype) l),
           (existsb (has_role RoleLayout) l),
           (existsb (has_role RoleDevice) l),
           (existsb (has_role RolePinMemory) l); simpl;
    split; intros H; try discriminate; try tauto;
    try (destruct H as (H1 & H2 & H3 & H4); discriminate).
Qed.

Lemma roles_present_0 (l : list Argument.t) :
  roles_present l = 0 <->
  existsb (has_role RoleDtype) l = false /\
  existsb (has_role RoleLayout) l = false /\
  existsb (has_role RoleDevice) l = false /\
  existsb (has_role RolePinMemory) l = false.
Proof.
  unfold roles_present, options_roles. simpl.
  destruct (existsb (has_role RoleDtype) l),
           (existsb (has_role RoleLayout) l),
           (existsb (has_role RoleDevice) l),
           (existsb (has_role RolePinMemory) l); simpl;
    split; intros H; try discriminate; try tauto;
    try (destruct H as (H1 & H2 & H3 & H4); discriminate).
Qed.

Lemma roles_present_le (l : list Argument.t) : roles_present l <= 4.
Proof.
  unfold roles_present, options_roles. simpl.
  destruct (existsb (has_role RoleDtype) l),
           (existsb (has_role RoleLayout) l),
           (existsb (has_role RoleDevice) l),
           (existsb (has_role RolePinMemory) l); simpl; lia.
Qed.

(** A receiver candidate carries none of the four roles. *)
Lemma roles_present_receiver (a : Argument.t) (l : list Argument.t) :
  has_role RoleReceiver a = true ->
  roles_present (a :: l) = roles_present l.
Proof.
  intros Ha. unfold roles_present, options_roles. simpl.
  rewrite (has_role_other RoleReceiver RoleDtype a Ha) by discriminate.
  rewrite (has_role_other RoleReceiver RoleLayout a Ha) by discriminate.
  rewrite (has_role_other RoleReceiver RoleDevice a Ha) by discriminate.
  rewrite (has_role_other RoleReceiver RolePinMemory a Ha) by discriminate.
  reflexivity.
Qed.

(** [bundle] succeeds exactly when the four roles are present, and then
    splits the list into the quadruple and the rest. *)
Lemma bundle_spec (l : list Argument.t) :
  match bundle l with
  | Some (b, rest) =>
      roles_present l = 4 /\
      Permutation l (TensorOptionsArguments.all b ++ rest)%list
  | None => roles_present l <> 4
  end.
Proof.
  unfold bundle.
  destruct (extract RoleDtype l) as [[d l1]|] eqn:E1.
  2:{ apply extract_None in E1. rewrite roles_present_4.
      intros (H & _). congruence. }
  apply extract_Some in E1 as (Hd & P1 & K1).
  destruct (extract RoleLayout l1) as [[y l2]|] eqn:E2.
  2:{ apply extract_None in E2. rewrite K1 in E2 by discriminate.
      rewrite roles_present_4. intros (_ & H & _). congruence. }
  apply extract_Some in E2 as (Hy & P2 & K2).
  destruct (extract RoleDevice l2) as [[v l3]|] eqn:E3.
  2:{ apply extract_None in E3.
      rewrite K2, K1 in E3 by discriminate.
      rewrite roles_present_4. intros (_ & _ & H & _). congruence. }
  apply extract_Some in E3 as (Hv & P3 & K3).
  destruct (extract RolePinMemory l3) as [[p l4]|] eqn:E4.
  2:{ apply extract_None in E4.
      rewrite K3, K2, K1 in E4 by discriminate.
      rewrite roles_present_4. intros (_ & _ & _ & H). congruence. }
  apply extract_Some in E4 as (Hp & P4 & K4).
  split.
  - apply roles_present_4.
    assert (X1 : existsb (has_role RoleDtype) l = true).
    { apply existsb_exists. exists d. split; [|assumption].
      apply (Permutation_in d (Permutation_sym P1)). now left. }
    assert (X2 : existsb (has_role RoleLayout) l = true).
    { rewrite <- K1 by discriminate.
      apply existsb_exists. exists y. split; [|assumption].
      apply (Permutation_in y (Permutation_sym P2)). now left. }
    assert (X3 : existsb (has_role RoleDevice) l = true).
    { rewrite <- K1, <- K2 by discriminate.
      apply existsb_exists. exists v. split; [|assumption].
      apply (Permutation_in v (Permutation_sym P3)). now left. }
    assert (X4 : existsb (has_role RolePinMemory) l = true).
    { rewrite <- K1, <- K2, <- K3 by discriminate.
      apply existsb_exists. exists p. split; [|assumption].
      apply (Permutation_in p (Permutation_sym P4)). now left. }
    tauto.
  - unfold TensorOptionsArguments.all. simpl.
    rewrite P1. apply perm_skip.
    rewrite P2. apply perm_skip.
    rewrite P3. apply perm_skip.
    exact P4.
Qed.

Lemma existsb_TensorOptions_map (l : list Argument.t) :
  existsb is_TensorOptionsArguments (map GArgument l) = false.
Proof. induction l as [|a t IH]; [reflexivity | exact IH]. Qed.

Lemma flat_map_grouped_map (l : list Argument.t) :
  flat_map grouped_arguments_of (map GArgument l) = l.
Proof.
  induction l as [|a t IH]; [reflexivity | simpl; now rewrite IH].
Qed.

(** The grouped sequence holds a bundle iff the four roles are present;
    without any role it is the plain sequence; it always covers each
    argument once. *)
Lemma group_options_spec (l : list Argument.t) :
  (existsb is_TensorOptionsArguments (group_options l) = true
   <-> roles_present l = 4) /\
  (roles_present l <> 4 -> group_options l = map GArgument l) /\
  Permutation (flat_map grouped_arguments_of (group_options l)) l.
Proof.
  unfold group_options. pose proof (bundle_spec l) as Hb.
  destruct (bundle l) as [[b rest]|].
  - destruct Hb as (H4 & P). split; [|split].
    + split; [intros _; exact H4|]. intros _.
      rewrite existsb_app. simpl. apply orb_true_r.
    + intros H. contradiction.
    + rewrite flat_map_app. cbn [flat_map grouped_arguments_of].
      rewrite !flat_map_grouped_map.
      apply Permutation_sym. apply (Permutation_trans P).
      rewrite <- (firstn_skipn (leading_plain l) rest) at 1.
      apply Permutation_app_swap_app.
  - split; [|split].
    + rewrite existsb_TensorOptions_map. split; [discriminate|].
      intros H. contradiction.
    + reflexivity.
    + now rewrite flat_map_grouped_map.
Qed.

(** What [cpp.group_arguments] returns when it returns. *)
Lemma group_arguments_Ok (func : FunctionSchema.t) (method : bool)
    (grouped : list GroupedArgument) :
  Cpp.group_arguments func method = Ok grouped ->
  (roles_present (FunctionSchema.arguments func) = 0 \/
   roles_present (FunctionSchema.arguments func) = 4) /\
  (if method
   then exists a rest,
       FunctionSchema.arguments func = a :: rest /\
       has_role RoleReceiver a = true /\
       roles_present rest = roles_present (FunctionSchema.arguments func) /\
       grouped = GThis (ThisArgument.mk a) :: group_options rest
   else grouped = group_options (FunctionSchema.arguments func)).
Proof.
  unfold Cpp.group_arguments.
  generalize (FunctionSchema.arguments func). intros args. cbv zeta.
  destruct ((0 <? roles_present args) && (roles_present args <? 4))%nat
    eqn:En; [discriminate|].
  intros H. split.
  - pose proof (roles_present_le args).
    apply andb_false_iff in En as [En|En].
    + apply Nat.ltb_ge in En. lia.
    + apply Nat.ltb_ge in En. lia.
  - destruct method.
    + destruct args as [|a rest]; [discriminate|].
      destruct (has_role RoleReceiver a) eqn:Ha; [|discriminate].
      injection H as <-. exists a, rest.
      split; [reflexivity|]. split; [assumption|]. split; [|reflexivity].
      symmetry. now apply roles_present_receiver.
    + now injection H as <-.
Qed.

Lemma group_arguments_bundle (func : FunctionSchema.t) (method : bool)
    (grouped : list GroupedArgument) :
  Cpp.group_arguments func method = Ok grouped ->
  (existsb is_TensorOptionsArguments grouped = true
   <-> roles_present (FunctionSchema.arguments func) = 4).
Proof.
  intros H. apply group_arguments_Ok in H as (_ & H).
  destruct method.
  - destruct H as (a & rest & _ & _ & Hr & ->). simpl.
    rewrite <- Hr. apply group_options_spec.
  - subst grouped. apply group_options_spec.
Qed.

Lemma group_arguments_partial (func : FunctionSchema.t) (method : bool) :
  1 <= roles_present (FunctionSchema.arguments func) <= 3 ->
  Cpp.group_arguments func method = Raise PartialResourceOptionsGroup.
Proof.
  intros [H1 H3]. unfold Cpp.group_arguments.
  replace (0 <? roles_present (FunctionSchema.arguments func))%nat with true
    by (symmetry; apply Nat.ltb_lt; lia).
  replace (roles_present (FunctionSchema.arguments func) <? 4)%nat with true
    by (symmetry; apply Nat.ltb_lt; lia).
  reflexivity.
Qed.

(* ------------------------------------------------------------------- *)
(** ** The signature group *)
(* ------------------------------------------------------------------- *)

Lemma from_schema_inv (cpp : CppApi) (func : FunctionSchema.t)
    (method : bool) (g : CppSignatureGroup.t) :
  CppSignatureGroup.from_schema cpp func method = Ok g ->
  exists grouped,
    cpp_group_arguments cpp func method = Ok grouped /\
    CppSignature._from_grouped_arguments cpp func grouped false
    = Ok (CppSignatureGroup.signature g) /\
    CppSignatureGroup.func g = func /\
    (if existsb is_TensorOptionsArguments grouped
     then exists f,
         CppSignature._from_grouped_arguments cpp func grouped true = Ok f /\
         CppSignatureGroup.faithful_signature g = Some f
     else CppSignatureGroup.faithful_signature g = None).
Proof.
  unfold CppSignatureGroup.from_schema. intros H.
  apply bind_Ok_inv in H as (grouped & Hg & H).
  apply bind_Ok_inv in H as (fs & Hf & H).
  apply bind_Ok_inv in H as (s & Hs & H).
  injection H as <-. simpl.
  exists grouped. repeat split; try assumption.
  destruct (existsb is_TensorOptionsArguments grouped).
  - apply bind_Ok_inv in Hf as (f & Hf & H). injection H as <-.
    now exists f.
  - now injection Hf as <-.
Qed.

Lemma from_schema_intro (cpp : CppApi) (func : FunctionSchema.t)
    (method : bool) (grouped : list GroupedArgument) (s : CppSignature.t) :
  cpp_group_arguments cpp func method = Ok grouped ->
  CppSignature._from_grouped_arguments cpp func grouped false = Ok s ->
  (existsb is_TensorOptionsArguments grouped = true ->
   exists f,
     CppSignature._from_grouped_arguments cpp func grouped true = Ok f) ->
  exists g,
    CppSignatureGroup.from_schema cpp func method = Ok g /\
    CppSignatureGroup.signature g = s.
Proof.
  intros Hg Hs Hf. unfold CppSignatureGroup.from_schema.
  rewrite Hg. simpl.
  destruct (existsb is_TensorOptionsArguments grouped).
  - destruct (Hf eq_refl) as (f & Hff). rewrite Hff. simpl.
    rewrite Hs. simpl. eexists. split; reflexivity.
  - simpl. rewrite Hs. simpl. eexists. split; reflexivity.
Qed.

(** C1: a group that [from_schema] returns holds the default signature,
    built from the grouped arguments without condition, and holds a
    faithful signature iff the grouped arguments contain a TensorOptions
    bundle, that is iff all four roles are present; with no role present
    there is none; with one to three roles present the construction raises
    [PartialResourceOptionsGroup]; and the group is returned whenever the
    grouping and the signatures it asks for are built. *)
Theorem from_schema_faithful_existence
    (cpp : CppApi) (func : FunctionSchema.t) (method : bool) :
  cpp_group_arguments cpp = Cpp.group_arguments ->
  (forall g,
      CppSignatureGroup.from_schema cpp func method = Ok g ->
      exists grouped,
        Cpp.group_arguments func method = Ok grouped /\
        CppSignature._from_grouped_arguments cpp func grouped false
        = Ok (CppSignatureGroup.signature g) /\
        (CppSignatureGroup.faithful_signature g <> None
         <-> existsb is_TensorOptionsArguments grouped = true) /\
        (CppSignatureGroup.faithful_signature g <> None
         <-> roles_present (FunctionSchema.arguments func) = 4) /\
        (roles_present (FunctionSchema.arguments func) = 0 ->
         CppSignatureGroup.faithful_signature g = None) /\
        (forall f,
            CppSignatureGroup.faithful_signature g = Some f ->
            CppSignature._from_grouped_arguments cpp func grouped true
            = Ok f)) /\
  (1 <= roles_present (FunctionSchema.arguments func) <= 3 ->
   CppSignatureGroup.from_schema cpp func method
   = Raise PartialResourceOptionsGroup) /\
  (forall grouped s,
      Cpp.group_arguments func method = Ok grouped ->
      CppSignature._from_grouped_arguments cpp func grouped false = Ok s ->
      (existsb is_TensorOptionsArguments grouped = true ->
       exists f,
         CppSignature._from_grouped_arguments cpp func grouped true
         = Ok f) ->
      exists g,
        CppSignatureGroup.from_schema cpp func method = Ok g /\
        CppSignatureGroup.signature g = s).
Proof.
  intros Hgroup. split; [|split].
  - intros g H.
    apply from_schema_inv in H as (grouped & Hg & Hs & _ & Hf).
    rewrite Hgroup in Hg.
    pose proof (group_arguments_bundle func method grouped Hg) as Hb.
    exists grouped. split; [assumption|]. split; [assumption|].
    destruct (existsb is_TensorOptionsArguments grouped) eqn:E.
    + destruct Hf as (f & Hf & Hfs). rewrite Hfs.
      assert (H4 : roles_present (FunctionSchema.arguments func) = 4)
        by now apply Hb.
      split; [split; [reflexivity | discriminate]|].
      split; [split; [intros _; exact H4 | discriminate]|].
      split; [intros H0; rewrite H0 in H4; discriminate|].
      intros f' Hf'. injection Hf' as <-. exact Hf.
    + rewrite Hf.
      split; [split; [congruence | discriminate]|].
      split.
      * split; [congruence|]. intros H4. apply Hb in H4. discriminate.
      * split; [reflexivity | discriminate].
  - intros Hn. unfold CppSignatureGroup.from_schema.
    rewrite Hgroup, (group_arguments_partial func method Hn). reflexivity.
  - intros grouped s Hg Hs Hf.
    apply (from_schema_intro cpp func method grouped s);
      [now rewrite Hgroup | assumption | assumption].
Qed.

(** On the worked schemas: [foo] has a faithful signature, the schema with
    two of the four roles raises. *)
Lemma from_schema_faithful_existence_witness :
  (exists g,
      CppSignatureGroup.from_schema (Cpp.api example_rendering) foo true
      = Ok g /\
      CppSignatureGroup.faithful_signature g <> None) /\
  CppSignatureGroup.from_schema (Cpp.api example_rendering) foo_partial true
  = Raise PartialResourceOptionsGroup.
Proof.
  split.
  - eexists. split; [reflexivity|].
    destruct (from_schema_faithful_existence
                (Cpp.api example_rendering) foo true eq_refl) as (H & _).
    destruct (H _ eq_refl) as (grouped & _ & _ & _ & H4 & _).
    apply H4. reflexivity.
  - destruct (from_schema_faithful_existence
                (Cpp.api example_rendering) foo_partial true eq_refl)
      as (_ & H & _).
    apply H. vm_compute. split; repeat constructor.
Defined.

(* ------------------------------------------------------------------- *)
(** ** Packs built from grouped arguments *)
(* ------------------------------------------------------------------- *)







Lemma native_arguments_Ok (R : Rendering) (func : FunctionSchema.t)
    (nargs : list NativeArgument.t) :
  Native.arguments R func = Ok nargs ->
  nargs = map (fun a => NativeArgument.mk (rendered R (Argument.type a))
                          (Argument.name a) (Argument.default a) (inl a))
              (FunctionSchema.arguments func).
Proof.
  unfold Native.arguments. rewrite mapM_Ok_Forall2.
  induction 1 as [|a n l ns Hn _ IH]; [reflexivity|].
  apply bind_Ok_inv in Hn as (ty & Hty & Hn). injection Hn as <-.
  simpl. rewrite <- IH. unfold rendered. now rewrite Hty.
Qed.

Lemma dispatcher_arguments_Ok (R : Rendering) (func : FunctionSchema.t)
    (dargs : list DispatcherArgument.t) :
  Dispatcher.arguments R func = Ok dargs ->
  dargs = map (fun a => DispatcherArgument.mk (rendered R (Argument.type a))
                          (Argument.name a) (inl a))
              (FunctionSchema.arguments func).
Proof.
  unfold Dispatcher.arguments. rewrite mapM_Ok_Forall2.
  induction 1 as [|a n l ns Hn _ IH]; [reflexivity|].
  apply bind_Ok_inv in Hn as (ty & Hty & Hn). injection Hn as <-.
  simpl. rewrite <- IH. unfold rendered. now rewrite Hty.
Qed.

(* ------------------------------------------------------------------- *)
(** ** The receiver *)
(* ------------------------------------------------------------------- *)





(** A construction goes through when every step does. *)
Lemma mapM_total {A B : Type} (f : A -> result B) (l : list A) :
  (forall a, In a l -> exists b, f a = Ok b) ->
  exists bs, mapM f l = Ok bs.
Proof.
  induction l as [|a t IH]; intros H.
  - now exists [].
  - destruct (H a (or_introl eq_refl)) as (b & Hb).
    destruct IH as (bs & Hbs); [intros x Hx; apply H; now right|].
    exists (b :: bs). simpl. now rewrite Hb, Hbs.
Qed.






Lemma native_from_schema_total (R : Rendering) (func : FunctionSchema.t) :
  (forall a, In a (FunctionSchema.arguments func) -> renderable R a) ->
  (exists rt, render_returns R (FunctionSchema.returns func) = Ok rt) ->
  exists ns, NativeSignature.from_schema (Native.api R) func = Ok ns.
Proof.
  intros Hargs (rt & Hrt). unfold NativeSignature.from_schema. simpl.
  destruct (mapM_total
              (fun a => ty <- render_type R (Argument.type a) ;;
                        Ok (NativeArgument.mk ty (Argument.name a)
                              (Argument.default a) (inl a)))
              (FunctionSchema.arguments func)) as (nargs & Hn).
  { intros a Ha. destruct (Hargs a Ha) as (ty & Hty).
    rewrite Hty. simpl. eauto. }
  unfold Native.arguments. rewrite Hn. simpl. rewrite Hrt. simpl. eauto.
Qed.

(** Every argument of [foo] renders in each of the three tables. *)
Lemma foo_renderable (R : Rendering) :
  R = example_rendering \/ R = dispatch_rendering \/ R = native_rendering ->
  forall a, In a (FunctionSchema.arguments foo) -> renderable R a.
Proof.
  intros HR a Ha. simpl in Ha.
  destruct HR as [-> | [-> | ->]];
    destruct Ha as [<-|[<-|[<-|[<-|[<-|[<-|[]]]]]]];
    eexists; reflexivity.
Defined.




(* ------------------------------------------------------------------- *)
(** ** The C++ signatures against the native signature *)
(* ------------------------------------------------------------------- *)







(* ------------------------------------------------------------------- *)
(** ** The defaults of the native signature *)
(* ------------------------------------------------------------------- *)

(** C8, amended: the native signature of a schema whose types render is
    built, and it retains each argument's original default, with its name
    and as the same schema argument, in order; [defn] renders every
    argument without its default; the defaulted form exists argument by
    argument, [str_with_default] being the plain form followed by [=] and
    the stored default where there is one. *)
Theorem native_defn_forms (R : Rendering) (dispatcher : DispatcherApi)
    (func : FunctionSchema.t) :
  ((forall a, In a (FunctionSchema.arguments func) -> renderable R a) ->
   (exists rt, render_returns R (FunctionSchema.returns func) = Ok rt) ->
   exists ns, NativeSignature.from_schema (Native.api R) func = Ok ns) /\
  (forall ns,
      NativeSignature.from_schema (Native.api R) func = Ok ns ->
      map NativeArgument.default (NativeSignature.arguments ns)
      = map Argument.default (FunctionSchema.arguments func) /\
      map NativeArgument.name (NativeSignature.arguments ns)
      = map Argument.name (FunctionSchema.arguments func) /\
      map NativeArgument.argument (NativeSignature.arguments ns)
      = map inl (FunctionSchema.arguments func)) /\
  (forall (s : NativeSignature.t) (name : option string),
      NativeSignature.defn dispatcher s name
      = NativeSignature._returns_type s ++ " "
          ++ match name with
             | Some n => n
             | None => dispatcher_name dispatcher (NativeSignature.func s)
             end
          ++ "("
          ++ join ", "
               (map (fun a => NativeArgument.type a ++ " "
                                ++ NativeArgument.name a)
                    (NativeSignature.arguments s))
          ++ ")") /\
  (forall a : NativeArgument.t,
      NativeArgument.str_with_default a
      = NativeArgument.str a
          ++ match NativeArgument.default a with
             | Some d => "=" ++ d
             | None => ""
             end).
Proof.
  split; [apply native_from_schema_total|]. split; [|split].
  - intros ns Hns. unfold NativeSignature.from_schema in Hns.
    apply bind_Ok_inv in Hns as (nargs & Hn & Hns).
    apply bind_Ok_inv in Hns as (nrt & _ & Hns). injection Hns as <-.
    simpl in Hn. apply native_arguments_Ok in Hn.
    unfold NativeSignature.arguments. simpl.
    rewrite Hn, !map_map. repeat split.
  - reflexivity.
  - intros a. unfold NativeArgument.str_with_default, NativeArgument.str.
    now rewrite append_assoc, append_assoc.
Qed.

(** The native signature of [foo] is built and keeps the six defaults of
    the schema, none for [self] and [n], [None] for the four others. *)
Lemma native_defn_forms_witness :
  exists ns,
    NativeSignature.from_schema (Native.api native_rendering) foo = Ok ns /\
    map NativeArgument.default (NativeSignature.arguments ns)
    = [None; None; Some "None"; Some "None"; Some "None"; Some "None"].
Proof.
  destruct (native_defn_forms native_rendering
              (Dispatcher.api dispatch_rendering) foo) as (Ht & H & _).
  destruct (Ht (foo_renderable _ (or_intror (or_intror eq_refl)))
              (ex_intro _ "Value &" eq_refl)) as (ns & Hns).
  exists ns. split; [exact Hns|].
  exact (proj1 (H ns Hns)).
Defined.

(* ------------------------------------------------------------------- *)
(** ** Further properties: default stripping of packs *)
(* ------------------------------------------------------------------- *)

Lemma cpp_no_default_fixed (a : CppArgument.t) :
  CppArgument.no_default a = a <-> CppArgument.default a = None.
Proof.
  destruct a as [ty nm d ref]. unfold CppArgument.no_default. simpl.
  split; intros H.
  - now injection H.
  - now rewrite H.
Qed.

(** X1: stripping the defaults of a pack is idempotent, and it leaves the
    pack as it is exactly when none of its explicit arguments has a
    default; a receiver pack is always left as it is. *)
Theorem pack_no_default_fixed (p : CppArgumentPack.t) :
  CppArgumentPack.no_default (CppArgumentPack.no_default p)
  = CppArgumentPack.no_default p /\
  (CppArgumentPack.no_default p = p
   <-> Forall (fun a => CppArgument.default a = None)
              (CppArgumentPack.explicit_arguments p)) /\
  (CppArgumentPack.is_this p = true -> CppArgumentPack.no_default p = p).
Proof.
  split; [destruct p; reflexivity|]. split.
  - destruct p as [c|t ty|b c1 c2 c3 c4]; simpl.
    + split.
      * intros H. injection H as H. apply cpp_no_default_fixed in H.
        now constructor.
      * intros H. inversion H as [|? ? Hc _]; subst.
        apply cpp_no_default_fixed in Hc. now rewrite Hc.
    + split; [constructor | reflexivity].
    + split.
      * intros H. injection H as H1 H2 H3 H4.
        apply cpp_no_default_fixed in H1, H2, H3, H4.
        repeat constructor; assumption.
      * intros H.
        inversion H as [|? ? H1 H']; subst.
        inversion H' as [|? ? H2 H'']; subst.
        inversion H'' as [|? ? H3 H''']; subst.
        inversion H''' as [|? ? H4 _]; subst.
        apply cpp_no_default_fixed in H1, H2, H3, H4.
        now rewrite H1, H2, H3, H4.
  - destruct p; simpl; intros H; [discriminate | reflexivity | discriminate].
Qed.

(** X2: stripping the defaults of a pack keeps its kind and its [type],
    and keeps the number, the types, the names and the back-references of
    its explicit arguments, in order. *)
Theorem pack_no_default_frame (p : CppArgumentPack.t) :
  pack_type (CppArgumentPack.no_default p) = pack_type p /\
  CppArgumentPack.is_this (CppArgumentPack.no_default p)
  = CppArgumentPack.is_this p /\
  is_single (CppArgumentPack.no_default p) = is_single p /\
  is_tensor_options (CppArgumentPack.no_default p) = is_tensor_options p /\
  length (CppArgumentPack.explicit_arguments (CppArgumentPack.no_default p))
  = length (CppArgumentPack.explicit_arguments p) /\
  map cpp_type_name
      (CppArgumentPack.explicit_arguments (CppArgumentPack.no_default p))
  = map cpp_type_name (CppArgumentPack.explicit_arguments p) /\
  map CppArgument.argument
      (CppArgumentPack.explicit_arguments (CppArgumentPack.no_default p))
  = map CppArgument.argument (CppArgumentPack.explicit_arguments p) /\
  pack_sources (CppArgumentPack.no_default p) = pack_sources p.
Proof. destruct p; repeat split. Qed.

(* ------------------------------------------------------------------- *)
(** ** Further properties: the explicit arguments of a signature *)
(* ------------------------------------------------------------------- *)

(** X3: a signature has one explicit argument for each single pack and
    four for each TensorOptions pack, receiver packs counting for none; so
    it has no more than four times as many as it has packs. *)
Theorem arguments_count (s : CppSignature.t) :
  length (CppSignature.arguments s)
  = length (filter is_single (CppSignature.argument_packs s))
    + 4 * length (filter is_tensor_options (CppSignature.argument_packs s)) /\
  length (CppSignature.arguments s)
  <= 4 * length (CppSignature.argument_packs s).
Proof.
  unfold CppSignature.arguments, CppSignature.argument_packs.
  induction (CppSignature._argument_packs s) as [|p l [IH1 IH2]].
  - split; [reflexivity | simpl; lia].
  - cbn [flat_map]. rewrite length_app.
    destruct p; cbn [filter is_single is_tensor_options length
                     CppArgumentPack.explicit_arguments];
      split; lia.
Qed.

(* ------------------------------------------------------------------- *)
(** ** Further properties: when a default shows in the text *)
(* ------------------------------------------------------------------- *)

Lemma append_inj_l (s t u : string) : s ++ t = s ++ u -> t = u.
Proof.
  induction s as [|c s IH]; simpl; intros H; [exact H|].
  injection H as H. now apply IH.
Qed.

Lemma length_append (s t : string) :
  String.length (s ++ t) = String.length s + String.length t.
Proof.
  induction s as [|c s IH]; simpl; [reflexivity | now rewrite IH].
Qed.

(** A text that shows a default is longer than the one that does not. *)
Lemma default_suffix_empty (d : option string) (u : string) :
  match d with Some d => "=" ++ d | None => "" end ++ u = u -> d = None.
Proof.
  destruct d as [d|]; [|reflexivity].
  intros H. apply (f_equal String.length) in H.
  rewrite length_append in H. simpl in H. lia.
Qed.

Lemma spec_param_split (b : bool) (a : CppArgument.t) (u : string) :
  spec_param b a ++ u
  = CppArgument.type a ++ " " ++ CppArgument.name a
      ++ (if b
          then match CppArgument.default a with
               | Some d => "=" ++ d
               | None => ""
               end
          else "") ++ u.
Proof.
  unfold spec_param. now rewrite !append_assoc.
Qed.

(** The two parameter lists, whatever follows them, are the same text only
    if no argument has a default. *)
Lemma spec_params_same_text (l : list CppArgument.t) (u : string) :
  spec_params true l ++ u = spec_params false l ++ u ->
  Forall (fun a => CppArgument.default a = None) l.
Proof.
  induction l as [|a t IH]; [constructor|].
  destruct t as [|a' t'].
  - cbn [spec_params]. rewrite !spec_param_split. intros H.
    do 3 apply append_inj_l in H.
    apply default_suffix_empty in H. now repeat constructor.
  - change (spec_params true (a :: a' :: t'))
      with (spec_param true a ++ ", " ++ spec_params true (a' :: t')).
    change (spec_params false (a :: a' :: t'))
      with (spec_param false a ++ ", " ++ spec_params false (a' :: t')).
    rewrite !append_assoc, !spec_param_split. intros H.
    do 3 apply append_inj_l in H.
    destruct (CppArgument.default a) as [d|] eqn:Ed.
    + simpl in H. discriminate H.
    + simpl in H. injection H as H.
      constructor; [assumption|]. now apply IH.
Qed.

Lemma spec_params_no_defaults (l : list CppArgument.t) :
  Forall (fun a => CppArgument.default a = None) l ->
  spec_params true l = spec_params false l.
Proof.
  induction 1 as [|a t Ha _ IH]; [reflexivity|].
  assert (Hp : spec_param true a = spec_param false a)
    by (unfold spec_param; now rewrite Ha).
  destruct t as [|a' t'].
  - exact Hp.
  - change (spec_param true a ++ ", " ++ spec_params true (a' :: t')
            = spec_param false a ++ ", " ++ spec_params false (a' :: t')).
    now rewrite Hp, IH.
Qed.

(** X4: the declaration of a signature is the same text as its definition
    under the schema-derived name exactly when none of its explicit
    arguments has a default: a default never goes unshown in [decl]. *)
Theorem decl_is_defn_iff_no_default (cpp : CppApi) (s : CppSignature.t) :
  CppSignature.decl cpp s = CppSignature.defn cpp s None ""
  <-> Forall (fun a => CppArgument.default a = None)
             (CppSignature.arguments s).
Proof.
  unfold CppSignature.decl, CppSignature.defn.
  rewrite (join_spec_params _ true) by apply str_is_spec_param.
  rewrite (join_spec_params _ false) by apply str_no_default_is_spec_param.
  change ("" ++ cpp_name cpp (CppSignature.func s))
    with (cpp_name cpp (CppSignature.func s)).
  split.
  - intros H. do 4 apply append_inj_l in H.
    now apply spec_params_same_text in H.
  - intros H. now rewrite (spec_params_no_defaults _ H).
Qed.

(** X5: for a native argument the text with default is the plain text
    exactly when no default is stored. *)
Theorem native_str_with_default_iff (a : NativeArgument.t) :
  NativeArgument.str_with_default a = NativeArgument.str a
  <-> NativeArgument.default a = None.
Proof.
  unfold NativeArgument.str_with_default, NativeArgument.str. split.
  - intros H.
    rewrite <- (append_empty_r (NativeArgument.name a)) in H at 2.
    do 3 apply append_inj_l in H.
    apply (default_suffix_empty _ ""). now rewrite append_empty_r.
  - intros H. rewrite H. now rewrite append_empty_r.
Qed.

(** X6: a signature built in faithful mode is left as it is by default
    stripping, and its declaration is the text of its definition. *)
Theorem faithful_decl_is_defn (cpp : CppApi) (func : FunctionSchema.t)
    (grouped : list GroupedArgument) (s : CppSignature.t) :
  CppSignature._from_grouped_arguments cpp func grouped true = Ok s ->
  strip_defaults s = s /\
  CppSignature.decl cpp s = CppSignature.defn cpp s None "".
Proof.
  intros H.
  apply from_grouped_arguments_inv in H as (packs & rt & _ & _ & ->).
  split.
  - unfold strip_defaults. simpl. f_equal.
    rewrite map_map. apply map_ext. intros p. destruct p; reflexivity.
  - unfold CppSignature.decl, CppSignature.defn.
    rewrite (join_spec_params _ true) by apply str_is_spec_param.
    rewrite (join_spec_params _ false) by apply str_no_default_is_spec_param.
    rewrite (spec_params_no_defaults
               (CppSignature.arguments
                  (CppSignature.mk func
                     (map CppArgumentPack.no_default packs) rt))).
    + reflexivity.
    + apply no_default_arguments_None.
Qed.

(** The faithful signature of [foo] declares what it defines. *)
Lemma faithful_decl_is_defn_witness :
  exists s,
    CppSignature._from_grouped_arguments
      (Cpp.api example_rendering) foo foo_grouped true = Ok s /\
    CppSignature.decl (Cpp.api example_rendering) s
    = CppSignature.defn (Cpp.api example_rendering) s None "".
Proof.
  assert (H : exists s,
             CppSignature._from_grouped_arguments
               (Cpp.api example_rendering) foo foo_grouped true = Ok s)
    by (eexists; reflexivity).
  destruct H as (s & H). exists s. split; [exact H|].
  exact (proj2 (faithful_decl_is_defn _ _ _ _ H)).
Defined.

(* ------------------------------------------------------------------- *)
(** ** Further properties: what a construction raises *)
(* ------------------------------------------------------------------- *)

Lemma mapM_first_error {A B : Type} (f : A -> result B)
    (l1 : list A) (a : A) (l2 : list A) (e : Error) :
  (forall x, In x l1 -> exists b, f x = Ok b) ->
  f a = Raise e ->
  mapM f (l1 ++ a :: l2)%list = Raise e.
Proof.
  intros Hl1 Ha. induction l1 as [|x l1 IH]; simpl.
  - now rewrite Ha.
  - destruct (Hl1 x (or_introl eq_refl)) as (b & Hb). rewrite Hb. simpl.
    rewrite IH; [reflexivity|]. intros y Hy. apply Hl1. now right.
Qed.

Lemma mapM_length {A B : Type} (f : A -> result B) (l : list A)
    (bs : list B) :
  mapM f l = Ok bs -> length bs = length l.
Proof.
  rewrite mapM_Ok_Forall2. intros H. symmetry.
  exact (Forall2_length H).
Qed.

(** X7: [_from_grouped_arguments] raises what the builder of the mode
    raises on the first grouped argument it fails on, whether or not the
    return type renders; it raises what [cpp.returns_type] raises when all
    packs are built; and a signature it returns refers to the schema,
    has one pack per grouped argument and the rendered return type. *)
Theorem from_grouped_arguments_raises (cpp : CppApi)
    (func : FunctionSchema.t) (grouped : list GroupedArgument)
    (faithful : bool) :
  (forall l1 a l2 e,
      grouped = (l1 ++ a :: l2)%list ->
      (forall x, In x l1 ->
                 exists p, (if faithful then cpp_argument_faithful cpp
                            else cpp_argument cpp) x = Ok p) ->
      (if faithful then cpp_argument_faithful cpp else cpp_argument cpp) a
      = Raise e ->
      CppSignature._from_grouped_arguments cpp func grouped faithful
      = Raise e) /\
  (forall packs e,
      mapM (if faithful then cpp_argument_faithful cpp else cpp_argument cpp)
           grouped = Ok packs ->
      cpp_returns_type cpp (FunctionSchema.returns func) = Raise e ->
      CppSignature._from_grouped_arguments cpp func grouped faithful
      = Raise e) /\
  (forall s,
      CppSignature._from_grouped_arguments cpp func grouped faithful = Ok s ->
      CppSignature.func s = func /\
      length (CppSignature.argument_packs s) = length grouped /\
      cpp_returns_type cpp (FunctionSchema.returns func)
      = Ok (CppSignature._returns_type s)).
Proof.
  split; [|split].
  - intros l1 a l2 e -> Hl1 Ha.
    unfold CppSignature._from_grouped_arguments.
    destruct faithful.
    + rewrite mapM_bind_map, (mapM_first_error _ l1 a l2 e Hl1 Ha).
      reflexivity.
    + rewrite (mapM_first_error _ l1 a l2 e Hl1 Ha). reflexivity.
  - intros packs e Hp Hrt.
    unfold CppSignature._from_grouped_arguments.
    destruct faithful.
    + rewrite mapM_bind_map, Hp. simpl. now rewrite Hrt.
    + rewrite Hp. simpl. now rewrite Hrt.
  - intros s H.
    apply from_grouped_arguments_inv in H as (packs & rt & Hp & Hrt & ->).
    unfold CppSignature.argument_packs. simpl.
    split; [reflexivity|]. split; [|assumption].
    apply mapM_length in Hp.
    destruct faithful; [now rewrite length_map | assumption].
Qed.

(** X8: the default and the faithful signature of a group that
    [from_schema] returns refer to the schema the group refers to, have
    the same return type and the same number of packs. *)
Theorem group_signatures_agree (cpp : CppApi) (func : FunctionSchema.t)
    (method : bool) (g : CppSignatureGroup.t) :
  CppSignatureGroup.from_schema cpp func method = Ok g ->
  CppSignatureGroup.func g = func /\
  CppSignature.func (CppSignatureGroup.signature g) = func /\
  (forall f,
      CppSignatureGroup.faithful_signature g = Some f ->
      CppSignature.func f = func /\
      CppSignature._returns_type f
      = CppSignature._returns_type (CppSignatureGroup.signature g) /\
      length (CppSignature.argument_packs f)
      = length (CppSignature.argument_packs (CppSignatureGroup.signature g))).
Proof.
  intros H. apply from_schema_inv in H as (grouped & _ & Hs & Hfunc & Hf).
  apply from_grouped_arguments_inv in Hs as (packs & rt & Hp & Hrt & Hs).
  rewrite Hs. simpl. split; [assumption|]. split; [reflexivity|].
  intros f Hfs.
  destruct (existsb is_TensorOptionsArguments grouped); [|congruence].
  destruct Hf as (f' & Hf' & Hfs'). rewrite Hfs' in Hfs. injection Hfs as <-.
  apply from_grouped_arguments_inv in Hf' as (packs' & rt' & Hp' & Hrt' & ->).
  unfold CppSignature.argument_packs. simpl.
  split; [reflexivity|]. split; [congruence|].
  apply mapM_length in Hp, Hp'. rewrite length_map. congruence.
Qed.

(** The two signatures of the group of [foo] return [Value] and have three
    packs each. *)
Lemma group_signatures_agree_witness :
  exists g f,
    CppSignatureGroup.from_schema (Cpp.api example_rendering) foo true
    = Ok g /\
    CppSignatureGroup.faithful_signature g = Some f /\
    CppSignature._returns_type f
    = CppSignature._returns_type (CppSignatureGroup.signature g) /\
    length (CppSignature.argument_packs f)
    = length (CppSignature.argument_packs (CppSignatureGroup.signature g)).
Proof.
  assert (Hg : exists g f,
             CppSignatureGroup.from_schema (Cpp.api example_rendering) foo true
             = Ok g /\ CppSignatureGroup.faithful_signature g = Some f)
    by (eexists; eexists; split; reflexivity).
  destruct Hg as (g & f & Hg & Hf). exists g, f.
  split; [exact Hg|]. split; [exact Hf|].
  destruct (group_signatures_agree _ _ _ _ Hg) as (_ & _ & H).
  destruct (H f Hf) as (_ & Hrt & Hlen). split; [exact Hrt | exact Hlen].
Defined.

(** X9: [from_schema] raises what the grouping raises; with a bundle
    among the grouped arguments it raises what the faithful construction
    raises, before the default one is tried; without a bundle the faithful
    builder is not called and the outcome is that of the default
    construction alone. *)
Theorem from_schema_raises (cpp : CppApi) (func : FunctionSchema.t)
    (method : bool) :
  (forall e,
      cpp_group_arguments cpp func method = Raise e ->
      CppSignatureGroup.from_schema cpp func method = Raise e) /\
  (forall grouped e,
      cpp_group_arguments cpp func method = Ok grouped ->
      existsb is_TensorOptionsArguments grouped = true ->
      CppSignature._from_grouped_arguments cpp func grouped true = Raise e ->
      CppSignatureGroup.from_schema cpp func method = Raise e) /\
  (forall grouped f e,
      cpp_group_arguments cpp func method = Ok grouped ->
      existsb is_TensorOptionsArguments grouped = true ->
      CppSignature._from_grouped_arguments cpp func grouped true = Ok f ->
      CppSignature._from_grouped_arguments cpp func grouped false = Raise e ->
      CppSignatureGroup.from_schema cpp func method = Raise e) /\
  (forall grouped,
      cpp_group_arguments cpp func method = Ok grouped ->
      existsb is_TensorOptionsArguments grouped = false ->
      CppSignatureGroup.from_schema cpp func method
      = (s <- CppSignature._from_grouped_arguments cpp func grouped false ;;
         Ok (CppSignatureGroup.mk func s None))).
Proof.
  unfold CppSignatureGroup.from_schema. repeat split.
  - intros e H. now rewrite H.
  - intros grouped e Hg Hb Hf. rewrite Hg. simpl. rewrite Hb, Hf. reflexivity.
  - intros grouped f e Hg Hb Hf Hs. rewrite Hg. simpl.
    rewrite Hb, Hf. simpl. now rewrite Hs.
  - intros grouped Hg Hb. rewrite Hg. simpl. rewrite Hb. reflexivity.
Qed.

(** On grouped arguments whose second one does not render, for a schema
    whose return type does not render either, the construction raises. *)
Lemma from_grouped_arguments_raises_witness :
  CppSignature._from_grouped_arguments (Cpp.api example_rendering)
    mystery_schema mystery_grouped false = Raise UnrenderableType.
Proof.
  destruct (from_grouped_arguments_raises (Cpp.api example_rendering)
              mystery_schema mystery_grouped false) as (H & _).
  apply (H [GArgument arg_n] (GArgument arg_mystery) [GArgument arg_self]).
  - reflexivity.
  - intros x [<-|[]]. eexists. reflexivity.
  - reflexivity.
Defined.

(** X10: [DispatcherSignature.from_schema] and
    [NativeSignature.from_schema] raise what the arguments raise, whether
    or not the return type renders, and otherwise what the return type
    raises; a signature they return refers to the schema and holds the
    arguments and the return type as the api gave them. *)
Theorem surface_from_schema (dispatcher : DispatcherApi)
    (native : NativeApi) (func : FunctionSchema.t) :
  (forall e,
      dispatcher_arguments dispatcher func = Raise e ->
      DispatcherSignature.from_schema dispatcher func = Raise e) /\
  (forall args e,
      dispatcher_arguments dispatcher func = Ok args ->
      dispatcher_returns_type dispatcher (FunctionSchema.returns func)
      = Raise e ->
      DispatcherSignature.from_schema dispatcher func = Raise e) /\
  (forall ds,
      DispatcherSignature.from_schema dispatcher func = Ok ds <->
      DispatcherSignature.func ds = func /\
      dispatcher_arguments dispatcher func
      = Ok (DispatcherSignature.arguments ds) /\
      dispatcher_returns_type dispatcher (FunctionSchema.returns func)
      = Ok (DispatcherSignature._returns_type ds)) /\
  (forall e,
      native_arguments native func = Raise e ->
      NativeSignature.from_schema native func = Raise e) /\
  (forall args e,
      native_arguments native func = Ok args ->
      native_returns_type native (FunctionSchema.returns func) = Raise e ->
      NativeSignature.from_schema native func = Raise e) /\
  (forall ns,
      NativeSignature.from_schema native func = Ok ns <->
      NativeSignature.func ns = func /\
      native_arguments native func = Ok (NativeSignature.arguments ns) /\
      native_returns_type native (FunctionSchema.returns func)
      = Ok (NativeSignature._returns_type ns)).
Proof.
  unfold DispatcherSignature.from_schema, NativeSignature.from_schema.
  repeat apply conj.
  - intros e H. now rewrite H.
  - intros args e Ha Hr. rewrite Ha. simpl. now rewrite Hr.
  - intros ds. split.
    + intros H. apply bind_Ok_inv in H as (args & Ha & H).
      apply bind_Ok_inv in H as (rt & Hr & H). injection H as <-.
      now repeat split.
    + intros (Hf & Ha & Hr). rewrite Ha. simpl. rewrite Hr. simpl.
      destruct ds; simpl in *. now subst.
  - intros e H. now rewrite H.
  - intros args e Ha Hr. rewrite Ha. simpl. now rewrite Hr.
  - intros ns. split.
    + intros H. apply bind_Ok_inv in H as (args & Ha & H).
      apply bind_Ok_inv in H as (rt & Hr & H). injection H as <-.
      now repeat split.
    + intros (Hf & Ha & Hr). rewrite Ha. simpl. rewrite Hr. simpl.
      destruct ns; simpl in *. now subst.
Qed.

(* ------------------------------------------------------------------- *)
(** ** Further properties: the definition text across the surfaces *)
(* ------------------------------------------------------------------- *)

Lemma cpp_defn_params (l : list CppArgument.t) :
  map CppArgument.str_no_default l = map plain_param (map cpp_type_name l).
Proof. rewrite map_map. reflexivity. Qed.

Lemma dispatcher_defn_params (l : list DispatcherArgument.t) :
  map DispatcherArgument.str l = map plain_param (map dispatcher_type_name l).
Proof. rewrite map_map. reflexivity. Qed.

Lemma native_defn_params (l : list NativeArgument.t) :
  map NativeArgument.str l = map plain_param (map native_type_name l).
Proof. rewrite map_map. reflexivity. Qed.

(** X11: under one explicit name, a C++ API signature, a dispatcher
    signature and a native signature with the same return type and the
    same types and names of arguments, in order, have the same definition
    text, whatever defaults and back-references their arguments carry. *)
Theorem defn_same_across_surfaces
    (cpp : CppApi) (native : NativeApi) (dispatcher : DispatcherApi)
    (s : CppSignature.t) (ds : DispatcherSignature.t)
    (ns : NativeSignature.t) (n p : string) :
  map cpp_type_name (CppSignature.arguments s)
  = map dispatcher_type_name (DispatcherSignature.arguments ds) ->
  map native_type_name (NativeSignature.arguments ns)
  = map dispatcher_type_name (DispatcherSignature.arguments ds) ->
  CppSignature._returns_type s = DispatcherSignature._returns_type ds ->
  NativeSignature._returns_type ns = DispatcherSignature._returns_type ds ->
  CppSignature.defn cpp s (Some n) p
  = DispatcherSignature.defn native ds (Some n) /\
  NativeSignature.defn dispatcher ns (Some n)
  = DispatcherSignature.defn native ds (Some n).
Proof.
  intros Hc Hn Hrc Hrn.
  unfold CppSignature.defn, DispatcherSignature.defn, NativeSignature.defn.
  rewrite cpp_defn_params, dispatcher_defn_params, native_defn_params.
  now rewrite Hc, Hn, Hrc, Hrn.
Qed.

(** For [foo] as a function, the faithful C++ signature, the dispatcher
    signature and the native signature define the same text. *)
Lemma defn_same_across_surfaces_witness :
  exists g f ds ns,
    CppSignatureGroup.from_schema (Cpp.api example_rendering) foo false
    = Ok g /\
    CppSignatureGroup.faithful_signature g = Some f /\
    DispatcherSignature.from_schema (Dispatcher.api example_rendering) foo
    = Ok ds /\
    NativeSignature.from_schema (Native.api example_rendering) foo = Ok ns /\
    CppSignature.defn (Cpp.api example_rendering) f (Some "foo") "at::"
    = DispatcherSignature.defn (Native.api example_rendering) ds (Some "foo") /\
    NativeSignature.defn (Dispatcher.api example_rendering) ns (Some "foo")
    = DispatcherSignature.defn (Native.api example_rendering) ds (Some "foo").
Proof.
  eexists. eexists. eexists. eexists.
  split; [reflexivity|]. split; [reflexivity|].
  split; [reflexivity|]. split; [reflexivity|].
  apply defn_same_across_surfaces; reflexivity.
Defined.

(** X12: the definition text does not depend on defaults: stripping the
    defaults of every pack of a signature changes none of its
    definitions, and stripping twice is stripping once. *)
Theorem defn_ignores_defaults (cpp : CppApi) (s : CppSignature.t)
    (n : option string) (p : string) :
  CppSignature.defn cpp (strip_defaults s) n p = CppSignature.defn cpp s n p /\
  strip_defaults (strip_defaults s) = strip_defaults s.
Proof.
  split.
  - unfold CppSignature.defn. rewrite arguments_strip_defaults.
    rewrite map_map. reflexivity.
  - unfold strip_defaults. simpl. f_equal.
    rewrite map_map. apply map_ext. intros q. destruct q; reflexivity.
Qed.

(* ------------------------------------------------------------------- *)
(** ** Further properties: the order of a TensorOptions pack *)
(* ------------------------------------------------------------------- *)

(** X13: when each constituent of a TensorOptions pack refers back to the
    argument of its bundle that it renders, the explicit arguments of the
    pack refer back, one by one and in order, to
    [TensorOptionsArguments.all] of the bundle, also after the defaults
    are stripped. *)
Theorem options_pack_order (b : TensorOptionsArguments.t)
    (dtype layout device pin_memory : CppArgument.t) :
  CppArgument.argument dtype = inl (TensorOptionsArguments.dtype b) ->
  CppArgument.argument layout = inl (TensorOptionsArguments.layout b) ->
  CppArgument.argument device = inl (TensorOptionsArguments.device b) ->
  CppArgument.argument pin_memory
  = inl (TensorOptionsArguments.pin_memory b) ->
  map CppArgument.argument
      (CppArgumentPack.explicit_arguments
         (CppArgumentPack.CppTensorOptionsArgumentPack
            b dtype layout device pin_memory))
  = map inl (TensorOptionsArguments.all b) /\
  map CppArgument.argument
      (CppArgumentPack.explicit_arguments
         (CppArgumentPack.no_default
            (CppArgumentPack.CppTensorOptionsArgumentPack
               b dtype layout device pin_memory)))
  = map inl (TensorOptionsArguments.all b) /\
  pack_sources
    (CppArgumentPack.CppTensorOptionsArgumentPack
       b dtype layout device pin_memory)
  = TensorOptionsArguments.all b.
Proof.
  intros H1 H2 H3 H4. unfold TensorOptionsArguments.all. simpl.
  now rewrite H1, H2, H3, H4.
Qed.

(** A pack of the bundle of [foo] lists precision, layout, device and
    pinned in that order. *)
Lemma options_pack_order_witness :
  map CppArgument.argument
      (CppArgumentPack.explicit_arguments
         (CppArgumentPack.CppTensorOptionsArgumentPack
            (TensorOptionsArguments.mk arg_precision arg_layout arg_device
               arg_pinned)
            (CppArgument.mk "Optional<PrecisionKind>" "precision"
               (Some "None") (inl arg_precision))
            (CppArgument.mk "Optional<LayoutKind>" "layout"
               (Some "None") (inl arg_layout))
            (CppArgument.mk "Optional<DeviceKind>" "device"
               (Some "None") (inl arg_device))
            (CppArgument.mk "Optional<bool>" "pinned"
               (Some "None") (inl arg_pinned))))
  = [inl arg_precision; inl arg_layout; inl arg_device; inl arg_pinned].
Proof.
  exact (proj1 (options_pack_order
                  (TensorOptionsArguments.mk arg_precision arg_layout
                     arg_device arg_pinned)
                  (CppArgument.mk "Optional<PrecisionKind>" "precision"
                     (Some "None") (inl arg_precision))
                  (CppArgument.mk "Optional<LayoutKind>" "layout"
                     (Some "None") (inl arg_layout))
                  (CppArgument.mk "Optional<DeviceKind>" "device"
                     (Some "None") (inl arg_device))
                  (CppArgument.mk "Optional<bool>" "pinned"
                     (Some "None") (inl arg_pinned))
                  eq_refl eq_refl eq_refl eq_refl)).
Defined.
